(** * microbi: path validation, route resolution and request dispatch

    A shallow embedding of [microbi.js].  The file follows the source from the
    bottom up: the two path regular expressions and [validatePath], the
    responses [respond404] and [respond405], the server configuration and its
    setters, and the request responder [onRequest] together with the
    listeners it installs on the request stream and on the file stream. *)

From Stdlib Require Import Strings.String Strings.Ascii Lists.List Bool.Bool.
From Stdlib Require Import ZArith.ZArith Arith.PeanoNat Lia.
From stdpp Require Import gmap strings pretty.

#[local] Set Warnings "-register-all".

Local Open Scope string_scope.
Local Open Scope list_scope.

(** ** Regular expressions

    The source validates paths with two JavaScript regular-expression
    literals.  They use literal characters, one character class, alternation,
    sequencing, [*] and the anchors [^] and [$]; that fragment is embedded
    here, with a matcher by derivatives. *)

Module Regexp.

Definition word := list ascii.

(** Members of a character class [[...]]. *)
Inductive class_item : Type :=
| Lit (c : ascii)      (* an escaped or plain character *)
| Digit                (* \d *)
| WordChar.            (* \w *)

Definition between (lo hi : nat) (c : ascii) : bool :=
  (lo <=? nat_of_ascii c)%nat && (nat_of_ascii c <=? hi)%nat.

Definition is_digit (c : ascii) : bool := between 48 57 c.
Definition is_upper (c : ascii) : bool := between 65 90 c.
Definition is_lower (c : ascii) : bool := between 97 122 c.
Definition is_letter (c : ascii) : bool := is_upper c || is_lower c.

Definition item_matches (i : class_item) (c : ascii) : bool :=
  match i with
  | Lit d => Ascii.eqb c d
  | Digit => is_digit c
  | WordChar => is_letter c || is_digit c || Ascii.eqb c "_"
  end.

Definition in_class (items : list class_item) (c : ascii) : bool :=
  existsb (fun i => item_matches i c) items.

Inductive regex : Type :=
| Void                              (* matches nothing *)
| Eps                               (* the empty word *)
| Chr (c : ascii)
| AnyChar
| Class (items : list class_item)
| Seq (r1 r2 : regex)
| Alt (r1 r2 : regex)
| Star (r : regex).

(** The words a regular expression denotes.  The iteration takes non-empty
    pieces, which denotes the same set as the unrestricted one. *)
Inductive iter (L : word -> Prop) : word -> Prop :=
| iter_done : iter L []
| iter_more u v : u <> [] -> L u -> iter L v -> iter L (u ++ v).

Fixpoint lang (r : regex) : word -> Prop :=
  match r with
  | Void => fun _ => False
  | Eps => fun w => w = []
  | Chr c => fun w => w = [c]
  | AnyChar => fun w => exists c, w = [c]
  | Class items => fun w => exists c, w = [c] /\ in_class items c = true
  | Seq r1 r2 => fun w => exists u v, w = u ++ v /\ lang r1 u /\ lang r2 v
  | Alt r1 r2 => fun w => lang r1 w \/ lang r2 w
  | Star r1 => iter (lang r1)
  end.

Fixpoint nullable (r : regex) : bool :=
  match r with
  | Void => false
  | Eps => true
  | Chr _ => false
  | AnyChar => false
  | Class _ => false
  | Seq r1 r2 => nullable r1 && nullable r2
  | Alt r1 r2 => nullable r1 || nullable r2
  | Star _ => true
  end.

Fixpoint deriv (c : ascii) (r : regex) : regex :=
  match r with
  | Void => Void
  | Eps => Void
  | Chr d => if Ascii.eqb c d then Eps else Void
  | AnyChar => Eps
  | Class items => if in_class items c then Eps else Void
  | Seq r1 r2 =>
      if nullable r1
      then Alt (Seq (deriv c r1) r2) (deriv c r2)
      else Seq (deriv c r1) r2
  | Alt r1 r2 => Alt (deriv c r1) (deriv c r2)
  | Star r1 => Seq (deriv c r1) (Star r1)
  end.

Fixpoint matches (r : regex) (w : word) : bool :=
  match w with
  | [] => nullable r
  | c :: w' => matches (deriv c r) w'
  end.

(** A regular-expression literal: the body and whether it opens with [^]
    and closes with [$] (no flags are used in the source, so [$] is the end
    of the input). *)
Record literal : Type := {
  from_start : bool;
  body : regex;
  to_end : bool
}.

(** [re.test(s)] searches [s] for a match of the body: any text may precede
    the match unless the literal is anchored at the start, and any text may
    follow it unless it is anchored at the end. *)
Definition search_form (re : literal) : regex :=
  Seq (if from_start re then Eps else Star AnyChar)
      (Seq (body re) (if to_end re then Eps else Star AnyChar)).

Definition test (re : literal) (s : string) : bool :=
  matches (search_form re) (list_ascii_of_string s).

End Regexp.

Import Regexp.

(** ** Path validation *)

(** [var VALID_PATH_REGEX = /^[\./_\-\d\w]*$/] *)
Definition VALID_PATH_REGEX : literal :=
  {| from_start := true;
     body := Star (Class [Lit "."; Lit "/"; Lit "_"; Lit "-"; Digit; WordChar]);
     to_end := true |}.

(** [var DISALLOWED_PATH_REGEX = /(\.\.)|(\/\.)/] *)
Definition DISALLOWED_PATH_REGEX : literal :=
  {| from_start := false;
     body := Alt (Seq (Chr ".") (Chr ".")) (Seq (Chr "/") (Chr "."));
     to_end := false |}.

Definition validatePath (path : string) : bool :=
  if test DISALLOWED_PATH_REGEX path then false
  else test VALID_PATH_REGEX path.

(** ** Handlers and the api object *)

(** The object [url.parse( request.url, true )] returns, as far as the
    responder and the handlers read it. *)
Record parsed_url : Type := {
  pathname : string;
  query : list (string * string)
}.

(** An api function.  [stream] is its [stream] property; [call] is what the
    function returns when it is called the common way, with the url object and
    the message body.  What a function called the stream way does with the
    two streams is its own business and is not modelled. *)
Record handler : Type := {
  stream : bool;
  call : parsed_url -> string -> string
}.

Module router.

(** Modelled from the spec: the api object that [./lib/router.js] walks.
    The file is not among the sources; the spec describes the registry as a
    tree keyed by path segments that ends in values keyed by the method
    name, whose value is a handler. *)
Inductive node : Type :=
| Leaf (h : handler)
| Branch (children : gmap string node).

(** Modelled from the spec: the split of [router.getRoutes], missing with
    [./lib/router.js]; a separator at either end leaves an empty piece, as
    [String.prototype.split] does. *)
Fixpoint split_on (sep : ascii) (s : string) : list string :=
  match s with
  | EmptyString => [EmptyString]
  | String c rest =>
      if Ascii.eqb c sep then EmptyString :: split_on sep rest
      else match split_on sep rest with
           | [] => [String c EmptyString]
           | w :: ws => String c w :: ws
           end
  end.

(** Modelled from the spec: "leading/trailing slashes produce no empty
    segments at the ends but internal structure is preserved"; the part of
    [router.getRoutes] that drops the empty pieces at the two ends. *)
Fixpoint drop_empty (l : list string) : list string :=
  match l with
  | EmptyString :: l' => drop_empty l'
  | _ => l
  end.

Definition trim_empty (l : list string) : list string :=
  rev (drop_empty (rev (drop_empty l))).

(** Modelled from the spec: [router.getRoutes], missing with
    [./lib/router.js].  The spec: split the path on [/] into segments,
    where leading and trailing slashes produce no empty segment at the ends
    and the internal structure is preserved, then append the method, in its
    exact case, as the final segment. *)
Definition getRoutes (pathname method : string) : list string :=
  trim_empty (split_on "/" pathname) ++ [method].

(** Modelled from the spec: [router.route], missing with
    [./lib/router.js].  The spec: walk the registry, matching each segment
    to a key by exact string equality; a missing key, or a terminal value
    that is not a handler, yields not-found. *)
Fixpoint route (routeParts : list string) (api : node) : option handler :=
  match routeParts with
  | [] => match api with
          | Leaf h => Some h
          | Branch _ => None
          end
  | part :: rest =>
      match api with
      | Leaf _ => None
      | Branch children =>
          match children !! part with
          | Some child => route rest child
          | None => None
          end
      end
  end.

(** Modelled from the spec: the registry is built by the embedding
    application, whose code is not among the sources; this is the registry
    that holds one handler, at the given segments. *)
Fixpoint single (segments : list string) (h : handler) : node :=
  match segments with
  | [] => Leaf h
  | k :: ks => Branch {[ k := single ks h ]}
  end.

End router.

Import router.

(** ** Server configuration *)

(** The three module-level variables [api], [apiContentType] and
    [staticServer]. *)
Record config : Type := {
  api : option node;
  apiContentType : option string;
  staticServer : bool
}.

(** ** The response and the events of a request *)

(** The second argument of [response.writeHead]. *)
Inductive headers : Type :=
| NoHeaders
| ContentType (value : option string).

(** The request, as far as the responder reads it. *)
Record request : Type := {
  method : string;
  url : string
}.

(** What the responder does to the outside world, listed in the order of the
    calls: on the router, on an api function, on the request, on the response
    and on the file system.  Every call is taken to return; what Node's
    response object makes of a call it receives after its head was written or
    after it was ended is Node's and is not modelled. *)
Inductive action : Type :=
| RouterRoute (routeParts : list string)
| CallStream (f : handler) (request : request)
| SetEncoding (enc : string)
| CallApi (f : handler) (reqUrl : parsed_url) (requestBody : string)
| WriteHead (status : Z) (hs : headers)
| ResponseWrite (data : string)
| ResponseEnd (data : option string)
| CreateReadStream (fileToServe : string)
| Pipe.

(** The listeners [onRequest] leaves installed when it returns. *)
Inductive listeners : Type :=
| NoListeners
| BodyListeners (f : handler) (reqUrl : parsed_url)
| FileListeners (fileToServe : string).

Inductive request_event : Type :=
| ReqData (data : string)
| ReqEnd.

Inductive file_event : Type :=
| FileData (data : string)
| FileError
| FileEnd.

(** What arrives after [onRequest] has returned: the events of the request
    stream, and the events of the read stream of each file. *)
Record world : Type := {
  request_events : list request_event;
  file_events : string -> list file_event
}.

(** [respond404] and [respond405]. *)
Definition respond404 : list action :=
  [WriteHead 404 NoHeaders; ResponseEnd (Some "404 Not found.")].

Definition respond405 : list action :=
  [WriteHead 405 NoHeaders; ResponseEnd (Some "405 Method not allowed.")].

(** [s.replace( '.', '' )]: the first dot is removed. *)
Fixpoint remove_first_dot (s : string) : string :=
  match s with
  | EmptyString => EmptyString
  | String c rest =>
      if Ascii.eqb c "." then rest else String c (remove_first_dot rest)
  end.

(** How a block of [onRequest] is left: by [return], or by reaching its
    end. *)
Inductive flow : Type :=
| Return (l : listeners)
| FallThrough.

Section Responder.

(** The collaborators from Node and from [mimemap]. *)
Variable url_parse : string -> parsed_url.
Variable extname : string -> string.
Variable mime : gmap string string.

(** [exports.setApiContentType], [exports.setApi] and
    [exports.disableStaticServer]. *)
Definition initial : config :=
  {| api := None; apiContentType := mime !! "txt"; staticServer := true |}.

Definition setApiContentType (ext : string) (cfg : config) : config :=
  {| api := api cfg; apiContentType := mime !! ext;
     staticServer := staticServer cfg |}.

Definition setApi (apiOb : option node) (cfg : config) : config :=
  {| api := apiOb; apiContentType := apiContentType cfg;
     staticServer := staticServer cfg |}.

Definition disableStaticServer (cfg : config) : config :=
  {| api := api cfg; apiContentType := apiContentType cfg;
     staticServer := false |}.

(** The block [if ( api ) { ... }]. *)
Definition api_section (cfg : config) (req : request) (reqUrl : parsed_url)
  : list action * flow :=
  match api cfg with
  | None => ([], FallThrough)
  | Some apiOb =>
      let routeParts := getRoutes (pathname reqUrl) (method req) in
      let apiFunction := route routeParts apiOb in
      match apiFunction with
      | Some f =>
          if stream f
          then ([RouterRoute routeParts; CallStream f req], FallThrough)
          else ([RouterRoute routeParts; SetEncoding "utf8"],
                Return (BodyListeners f reqUrl))
      | None => ([RouterRoute routeParts], FallThrough)
      end
  end.

(** The rest of [onRequest], from the [staticServer] test on. *)
Definition static_section (cfg : config) (method pathname : string)
  : list action * listeners :=
  let disabled := if staticServer cfg then [] else respond404 in
  if negb (String.eqb method "GET")
  then (disabled ++ respond405, NoListeners)
  else
    let fileToServe :=
      if String.eqb pathname "/" then "index.html" else "." +:+ pathname in
    let ext := remove_first_dot (extname fileToServe) in
    (disabled ++
       [CreateReadStream fileToServe;
        WriteHead 200 (ContentType (mime !! ext));
        Pipe],
     FileListeners fileToServe).

(** The test that opens [onRequest]. *)
Definition path_accepted (req : request) : bool :=
  validatePath (pathname (url_parse (url req))).

(** [onRequest], up to its return: the actions it performs and the
    listeners it leaves behind. *)
Definition onRequest (cfg : config) (req : request)
  : list action * listeners :=
  let reqUrl := url_parse (url req) in
  if negb (path_accepted req) then (respond404, NoListeners)
  else
    match api_section cfg req reqUrl with
    | (done, Return l) => (done, l)
    | (done, FallThrough) =>
        let (more, l) := static_section cfg (method req) (pathname reqUrl) in
        (done ++ more, l)
    end.

(** The listeners on the request: ['data'] appends to [requestBody],
    ['end'] answers. *)
Fixpoint on_request_events (cfg : config) (f : handler) (reqUrl : parsed_url)
    (requestBody : string) (evs : list request_event) : list action :=
  match evs with
  | [] => []
  | ReqData data :: evs' =>
      on_request_events cfg f reqUrl (requestBody +:+ data) evs'
  | ReqEnd :: _ =>
      [WriteHead 200 (ContentType (apiContentType cfg));
       CallApi f reqUrl requestBody;
       ResponseEnd (Some (call f reqUrl requestBody))]
  end.

(** The listeners on the read stream.  [readStream.pipe( response )] writes
    each chunk to the response and, when the stream ends, ends the response;
    the ['error'] listener answers 404; the ['end'] listener, installed after
    the one of [pipe], ends the response once more. *)
Fixpoint on_file_events (evs : list file_event) : list action :=
  match evs with
  | [] => []
  | FileData data :: evs' => ResponseWrite data :: on_file_events evs'
  | FileError :: _ => respond404
  | FileEnd :: _ => [ResponseEnd None; ResponseEnd None]
  end.

Definition after_return (cfg : config) (l : listeners) (w : world)
  : list action :=
  match l with
  | NoListeners => []
  | BodyListeners f reqUrl =>
      on_request_events cfg f reqUrl "" (request_events w)
  | FileListeners fileToServe => on_file_events (file_events w fileToServe)
  end.

(** Everything done for one request. *)
Definition serve (cfg : config) (req : request) (w : world) : list action :=
  let (done, l) := onRequest cfg req in
  done ++ after_return cfg l w.

End Responder.

(** ** Observations on what was done *)

(** The api function route resolution yields for a request, if any: none
    when no api object is installed. *)
Definition matched (cfg : config) (reqUrl : parsed_url) (method : string)
  : option handler :=
  match api cfg with
  | None => None
  | Some apiOb => route (getRoutes (pathname reqUrl) method) apiOb
  end.

(** The call to the router, made only when an api object is installed. *)
Definition route_lookup (cfg : config) (reqUrl : parsed_url) (method : string)
  : list action :=
  match api cfg with
  | None => []
  | Some _ => [RouterRoute (getRoutes (pathname reqUrl) method)]
  end.

(** The chunks of a body, joined in the order of arrival. *)
Definition joined (chunks : list string) : string :=
  fold_right String.append "" chunks.

(** The calls made on the response object. *)
Definition on_response (a : action) : bool :=
  match a with
  | WriteHead _ _ | ResponseWrite _ | ResponseEnd _ => true
  | _ => false
  end.

Definition response_calls (done : list action) : list action :=
  List.filter on_response done.

(** The calls that belong to api routing. *)
Definition on_api (a : action) : bool :=
  match a with
  | RouterRoute _ | CallStream _ _ | SetEncoding _ | CallApi _ _ _ => true
  | _ => false
  end.

(** The calls that belong to file serving. *)
Definition on_file (a : action) : bool :=
  match a with
  | CreateReadStream _ | Pipe | ResponseWrite _ => true
  | _ => false
  end.

Definition writes_status (status : Z) (a : action) : bool :=
  match a with
  | WriteHead s _ => Z.eqb s status
  | _ => false
  end.

(** ** The properties the documentation asks of a path, in its own words *)

Module PathSpec.

(** A letter, a digit, a dot, a hyphen, an underscore or a forward slash;
    the letters are those of [\w], A to Z and a to z. *)
Definition allowed_char (c : ascii) : bool :=
  is_letter c || is_digit c || Ascii.eqb c "." || Ascii.eqb c "-"
  || Ascii.eqb c "_" || Ascii.eqb c "/".

(** [sub] occurs somewhere in [p]. *)
Definition occurs (sub p : string) : Prop :=
  exists pre post, p = pre +:+ sub +:+ post.

Definition is_control (c : ascii) : bool :=
  (nat_of_ascii c <? 32)%nat || (nat_of_ascii c =? 127)%nat.

(** A space, [?], [%], [<] or a control character. *)
Definition named_forbidden (c : ascii) : bool :=
  Ascii.eqb c " " || Ascii.eqb c "?" || Ascii.eqb c "%" || Ascii.eqb c "<"
  || is_control c.

End PathSpec.

(** ** What it means for a handler to be registered at a list of segments

    The spec: "any path from root to a leaf corresponds 1:1 to a URL path +
    method combination". *)


(** ** Stand-ins for the collaborators

    [url.parse] and [path.extname] belong to Node and the table [mime] to the
    package [mimemap]; the responder above takes them as parameters.  The
    examples instantiate them with the following, which cover request targets
    of the form [/path?query]. *)

Module Node.

(** The text before the first [sep], and the text after it. *)
Fixpoint before (sep : ascii) (s : string) : string :=
  match s with
  | EmptyString => EmptyString
  | String c rest =>
      if Ascii.eqb c sep then EmptyString else String c (before sep rest)
  end.

Fixpoint after (sep : ascii) (s : string) : string :=
  match s with
  | EmptyString => EmptyString
  | String c rest => if Ascii.eqb c sep then rest else after sep rest
  end.

Definition parse_query (search : string) : list (string * string) :=
  match search with
  | EmptyString => []
  | _ => map (fun kv => (before "=" kv, after "=" kv)) (split_on "&" search)
  end.

Definition url_parse (u : string) : parsed_url :=
  let target := before "#" u in
  {| pathname := before "?" target;
     query := parse_query (after "?" target) |}.

(** The suffix of [s] that starts at its last dot. *)
Fixpoint from_last_dot (s : string) : option string :=
  match s with
  | EmptyString => None
  | String c rest =>
      match from_last_dot rest with
      | Some e => Some e
      | None => if Ascii.eqb c "." then Some s else None
      end
  end.

Definition extname (p : string) : string :=
  match List.last (split_on "/" p) EmptyString with
  | EmptyString => EmptyString
  | String _ rest =>
      match from_last_dot rest with
      | Some e => e
      | None => EmptyString
      end
  end.

Definition mime : gmap string string :=
  <[ "txt" := "text/plain" ]> (<[ "html" := "text/html" ]> ∅).

End Node.

(** ** The configurations and requests of the examples *)

Module Examples.

Definition initial : config := initial Node.mime.

Definition onRequest := onRequest Node.url_parse Node.extname Node.mime.
Definition serve := serve Node.url_parse Node.extname Node.mime.

(** An api function that takes the two streams. *)
Definition streamer : handler :=
  {| stream := true; call := fun _ _ => "" |}.

(** An api function that returns the body it was given. *)
Definition echo : handler :=
  {| stream := false; call := fun _ requestBody => requestBody |}.

Definition with_streamer : config :=
  setApi (Some (single ["s"; "GET"] streamer)) initial.

Definition with_echo : config :=
  setApi (Some (single ["echo"; "POST"] echo)) initial.

Definition api_only : config := disableStaticServer initial.

Definition get (u : string) : request := {| method := "GET"; url := u |}.
Definition post (u : string) : request := {| method := "POST"; url := u |}.

(** No file can be opened. *)
Definition no_files (body : list request_event) : world :=
  {| request_events := body; file_events := fun _ => [FileError] |}.

End Examples.


(** ** The file a path is served from *)

(** [var fileToServe = pathname == '/' ? 'index.html' : '.' + pathname] *)
Definition fileToServe (pathname : string) : string :=
  if String.eqb pathname "/" then "index.html" else "." +:+ pathname.

(** The key under which the content type of a file is looked up:
    [path.extname( fileToServe ).replace('.', '')], with [path.extname] a
    parameter as in the responder. *)
Definition mime_key (extname : string -> string) (file : string) : string :=
  remove_first_dot (extname file).

(** ** Scanning a path for a pair of characters *)

Module PathScan.

(** [c1] immediately followed by [c2] somewhere in [w]. *)
Fixpoint has_pair (c1 c2 : ascii) (w : list ascii) : bool :=
  match w with
  | x :: (y :: _) as rest =>
      (Ascii.eqb x c1 && Ascii.eqb y c2) || has_pair c1 c2 rest
  | _ => false
  end.

Definition starts_with (c : ascii) (w : list ascii) : bool :=
  match w with
  | x :: _ => Ascii.eqb x c
  | [] => false
  end.

Fixpoint ends_with (c : ascii) (w : list ascii) : bool :=
  match w with
  | [] => false
  | [x] => Ascii.eqb x c
  | _ :: rest => ends_with c rest
  end.

Definition begins (c : ascii) (s : string) : bool :=
  starts_with c (list_ascii_of_string s).

End PathScan.

(** ** More observations on what was done *)

Definition is_end (a : action) : bool :=
  match a with
  | ResponseEnd _ => true
  | _ => false
  end.

(** How many times [response.end] was called. *)
Definition count_ends (done : list action) : nat :=
  length (List.filter is_end done).

(** ** Calls of the exported setters, in sequence *)

Inductive setter_call : Type :=
| CallSetApiContentType (ext : string)
| CallSetApi (apiOb : option node)
| CallDisableStaticServer.

Definition call_setter (mime : gmap string string) (c : setter_call)
    (cfg : config) : config :=
  match c with
  | CallSetApiContentType ext => setApiContentType mime ext cfg
  | CallSetApi apiOb => setApi apiOb cfg
  | CallDisableStaticServer => disableStaticServer cfg
  end.

Definition call_setters (mime : gmap string string) (cs : list setter_call)
    (cfg : config) : config :=
  fold_left (fun cfg c => call_setter mime c cfg) cs cfg.

Definition is_disable (c : setter_call) : bool :=
  match c with
  | CallDisableStaticServer => true
  | _ => false
  end.

(** The argument of the last [setApi] among the calls, and the extension of
    the last [setApiContentType]. *)
Fixpoint last_api (cs : list setter_call) (before : option node)
  : option node :=
  match cs with
  | [] => before
  | CallSetApi apiOb :: cs' => last_api cs' apiOb
  | _ :: cs' => last_api cs' before
  end.

Fixpoint last_ext (cs : list setter_call) : option string :=
  match cs with
  | [] => None
  | CallSetApiContentType ext :: cs' =>
      match last_ext cs' with
      | Some e => Some e
      | None => Some ext
      end
  | _ :: cs' => last_ext cs'
  end.

(** ** Starting the server *)

Module Bootstrap.

(** The values [port] and [ip] can take: an argument left out, a number or a
    string.  The numbers are the integers; [NaN] and the fractions are left
    out. *)
Inductive value : Type :=
| Undefined
| Number (n : Z)
| Text (s : string).

(** Whether [||] keeps its left operand. *)
Definition truthy (v : value) : bool :=
  match v with
  | Undefined => false
  | Number n => negb (Z.eqb n 0)
  | Text s => negb (String.eqb s "")
  end.

(** [a || b] *)
Definition or_else (a b : value) : value := if truthy a then a else b.

(** [process.argv[ i ]] *)
Definition argv_at (argv : list string) (i : nat) : value :=
  match argv !! i with
  | Some s => Text s
  | None => Undefined
  end.

(** The text of a value inside a string concatenation. *)
Definition to_text (v : value) : string :=
  match v with
  | Undefined => "undefined"
  | Number n => pretty n
  | Text s => s
  end.

(** The second argument of [https.createServer]. *)
Record tls_options : Type := {
  key : string;
  cert : string
}.

(** What starting does, in order; the request listener of both servers is
    [onRequest]. *)
Inductive boot_action : Type :=
| CreateServer
| CreateSecureServer (options : tls_options)
| Listen (port ip : value)
| ConsoleLog (msg : string).

(** [var server = function( port, ip ) { ... }] *)
Definition server (port ip : value) (argv : list string) : list boot_action :=
  let port := or_else (or_else port (argv_at argv 2)) (Number 8080) in
  let ip := or_else (or_else ip (argv_at argv 3)) (Text "127.0.0.1") in
  [CreateServer;
   Listen port ip;
   ConsoleLog ("Server running at ip: " +:+ to_text ip +:+ ":" +:+ to_text port)].

(** [var httpsServer = function( options, port, ip ) { ... }] *)
Definition httpsServer (options : tls_options) (port ip : value)
    (argv : list string) : list boot_action :=
  let port := or_else (or_else port (argv_at argv 2)) (Number 8080) in
  let ip := or_else (or_else ip (argv_at argv 3)) (Text "127.0.0.1") in
  [CreateSecureServer options;
   Listen port ip;
   ConsoleLog
     ("Https server running at ip: " +:+ to_text ip +:+ ":" +:+ to_text port)].

(** [if ( ! module.parent ) server()], run when the module is loaded;
    [has_parent] tells whether the module was required by another file. *)
Definition on_load (has_parent : bool) (argv : list string)
  : list boot_action :=
  if has_parent then [] else server Undefined Undefined argv.

(** The arguments of the calls to [listen]. *)
Definition listen_args (done : list boot_action) : list (value * value) :=
  flat_map (fun a => match a with
                     | Listen port ip => [(port, ip)]
                     | _ => []
                     end) done.

End Bootstrap.

(** ** The shape of what is done for a request *)

Section ResponderShape.

Variable url_parse : string -> parsed_url.
Variable extname : string -> string.
Variable mime : gmap string string.

Local Abbreviation path_accepted := (path_accepted url_parse).
Local Abbreviation serve := (serve url_parse extname mime).

Implicit Types (cfg : config) (req : request) (w : world).

(** What the static block and the listeners on the file do. *)
Definition static_run cfg (m p : string) w : list action :=
  (if staticServer cfg then [] else respond404)
    ++ (if String.eqb m "GET"
        then [CreateReadStream (fileToServe p);
              WriteHead 200 (ContentType (mime !! mime_key extname (fileToServe p)));
              Pipe]
               ++ on_file_events (file_events w (fileToServe p))
        else respond405).

(** The four cases of a request. *)
Inductive served cfg req w : Prop :=
| served_rejected :
    path_accepted req = false ->
    serve cfg req w = respond404 ->
    served cfg req w
| served_buffered f :
    path_accepted req = true ->
    matched cfg (url_parse (url req)) (method req) = Some f ->
    stream f = false ->
    serve cfg req w =
      [RouterRoute (getRoutes (pathname (url_parse (url req))) (method req));
       SetEncoding "utf8"]
        ++ on_request_events cfg f (url_parse (url req)) "" (request_events w) ->
    served cfg req w
| served_stream f :
    path_accepted req = true ->
    matched cfg (url_parse (url req)) (method req) = Some f ->
    stream f = true ->
    serve cfg req w =
      [RouterRoute (getRoutes (pathname (url_parse (url req))) (method req));
       CallStream f req]
        ++ static_run cfg (method req) (pathname (url_parse (url req))) w ->
    served cfg req w
| served_unmatched :
    path_accepted req = true ->
    matched cfg (url_parse (url req)) (method req) = None ->
    serve cfg req w =
      route_lookup cfg (url_parse (url req)) (method req)
        ++ static_run cfg (method req) (pathname (url_parse (url req))) w ->
    served cfg req w.

End ResponderShape.

(** ** More configurations and worlds for the examples *)

Module MoreExamples.

Import Examples.

(** [index.html] is read in two chunks; no other file can be opened. *)
Definition with_index (body : list request_event) : world :=
  {| request_events := body;
     file_events := fun file =>
       if String.eqb file "index.html"
       then [FileData "<html>"; FileData "</html>"; FileEnd]
       else [FileError] |}.

Definition put (u : string) : request := {| method := "PUT"; url := u |}.

End MoreExamples.

(** * Properties *)

(** ** The matcher decides the denotation *)

Module RegexpFacts.

Lemma nullable_lang r : nullable r = true <-> lang r [].
Proof.
  induction r as [ | | c | | items | r1 IH1 r2 IH2 | r1 IH1 r2 IH2 | r IH ];
    simpl.
  - split; [discriminate | tauto].
  - tauto.
  - split; discriminate.
  - split; [discriminate | intros [c H]; discriminate].
  - split; [discriminate | intros (c & H & _); discriminate].
  - rewrite andb_true_iff, IH1, IH2. split.
    + intros [H1 H2]. exists [], []. auto.
    + intros (u & v & E & Hu & Hv).
      destruct u as [ | d u ]; [ | discriminate E ].
      simpl in E. subst v. auto.
  - rewrite orb_true_iff, IH1, IH2. tauto.
  - split; [intros _; constructor | reflexivity].
Qed.

Lemma iter_head L c w :
  iter L (c :: w) -> exists u v, w = u ++ v /\ L (c :: u) /\ iter L v.
Proof.
  intros H. inversion H as [ | u v Hne Hu Hv E ].
  destruct u as [ | d u ]; [congruence | ].
  simpl in E. injection E as -> <-. eauto.
Qed.

Lemma deriv_lang c r : forall w, lang (deriv c r) w <-> lang r (c :: w).
Proof.
  induction r as [ | | d | | items | r1 IH1 r2 IH2 | r1 IH1 r2 IH2 | r IH ];
    intros w; simpl.
  - tauto.
  - split; [tauto | discriminate].
  - destruct (Ascii.eqb_spec c d) as [-> | Hne]; simpl.
    + split; [intros -> | intros H; injection H]; auto.
    + split; [tauto | intros H; injection H; auto].
  - split; [intros ->; eauto | intros [d H]; injection H; auto].
  - destruct (in_class items c) eqn:Hc; simpl.
    + split; [intros ->; eauto | intros (d & H & _); injection H; auto].
    + split; [tauto | ].
      intros (d & H & Hd). injection H as -> _. congruence.
  - destruct (nullable r1) eqn:Hn; simpl.
    + split.
      * intros [(u & v & -> & Hu & Hv) | H].
        -- exists (c :: u), v. rewrite <- IH1. auto.
        -- exists [], (c :: w). rewrite <- IH2, <- nullable_lang. auto.
      * intros (u & v & E & Hu & Hv). destruct u as [ | d u ]; simpl in E.
        -- right. subst v. now apply IH2.
        -- injection E as <- ->. left. exists u, v. rewrite IH1. auto.
    + split.
      * intros (u & v & -> & Hu & Hv).
        exists (c :: u), v. rewrite <- IH1. auto.
      * intros (u & v & E & Hu & Hv). destruct u as [ | d u ]; simpl in E.
        -- apply nullable_lang in Hu. congruence.
        -- injection E as <- ->. exists u, v. rewrite IH1. auto.
  - rewrite IH1, IH2. tauto.
  - split.
    + intros (u & v & -> & Hu & Hv).
      apply (iter_more _ (c :: u) v); [discriminate | now apply IH | exact Hv].
    + intros H. apply iter_head in H as (u & v & -> & Hu & Hv).
      exists u, v. rewrite IH. auto.
Qed.

Lemma matches_lang w : forall r, matches r w = true <-> lang r w.
Proof.
  induction w as [ | c w IH ]; intros r; simpl.
  - apply nullable_lang.
  - rewrite IH. apply deriv_lang.
Qed.

Lemma iter_any w : iter (lang AnyChar) w.
Proof.
  induction w as [ | c w IH ]; [constructor | ].
  apply (iter_more _ [c] w); [discriminate | simpl; eauto | exact IH].
Qed.

Lemma iter_class items w :
  iter (lang (Class items)) w <-> Forall (fun c => in_class items c = true) w.
Proof.
  split.
  - induction 1 as [ | u v _ (c & -> & Hc) _ IH ]; [constructor | ].
    simpl. constructor; assumption.
  - induction 1 as [ | c w Hc _ IH ]; [constructor | ].
    apply (iter_more _ [c] w); [discriminate | simpl; eauto | exact IH].
Qed.

(** What [test] finds: a piece of the input in the denotation of the body,
    at the start if the literal opens with [^], up to the end if it closes
    with [$]. *)
Lemma test_spec re s :
  test re s = true <->
  exists pre mid post,
    list_ascii_of_string s = pre ++ mid ++ post /\
    lang (body re) mid /\
    (from_start re = true -> pre = []) /\
    (to_end re = true -> post = []).
Proof.
  unfold test, search_form. rewrite matches_lang. simpl. split.
  - intros (pre & rest & -> & Hpre & mid & post & -> & Hmid & Hpost).
    exists pre, mid, post. repeat split; auto.
    + intros E. rewrite E in Hpre. exact Hpre.
    + intros E. rewrite E in Hpost. exact Hpost.
  - intros (pre & mid & post & -> & Hmid & Hs & He).
    exists pre, (mid ++ post). split; [reflexivity | ]. split.
    + destruct (from_start re); [now apply Hs | apply iter_any].
    + exists mid, post. repeat split; auto.
      destruct (to_end re); [now apply He | apply iter_any].
Qed.

End RegexpFacts.

(** ** Path validation *)

Module PathFacts.

Import PathSpec RegexpFacts.

Lemma chars_append a b :
  list_ascii_of_string (a +:+ b)
  = list_ascii_of_string a ++ list_ascii_of_string b.
Proof. induction a as [ | c a IH ]; simpl; [ | rewrite IH ]; reflexivity. Qed.

Lemma string_of_chars_app u v :
  string_of_list_ascii (u ++ v)
  = string_of_list_ascii u +:+ string_of_list_ascii v.
Proof. induction u as [ | c u IH ]; simpl; [ | rewrite IH ]; reflexivity. Qed.

Lemma append_assoc a b c : (a +:+ b) +:+ c = a +:+ b +:+ c.
Proof.
  induction a as [ | x a IH ]; [reflexivity | ].
  change (String x ((a +:+ b) +:+ c) = String x (a +:+ b +:+ c)).
  now rewrite IH.
Qed.

(** [occurs] on the characters. *)
Lemma occurs_chars sub p :
  occurs sub p <->
  exists pre post,
    list_ascii_of_string p = pre ++ list_ascii_of_string sub ++ post.
Proof.
  split.
  - intros (pre & post & ->). rewrite !chars_append. eauto.
  - intros (pre & post & E).
    exists (string_of_list_ascii pre), (string_of_list_ascii post).
    rewrite <- (string_of_list_ascii_of_string p), E.
    rewrite !string_of_chars_app, string_of_list_ascii_of_string.
    reflexivity.
Qed.

(** The class of [VALID_PATH_REGEX] holds the allowed characters. *)
Lemma class_allowed c :
  in_class [Lit "."; Lit "/"; Lit "_"; Lit "-"; Digit; WordChar] c
  = allowed_char c.
Proof.
  unfold in_class, allowed_char. simpl.
  destruct (Ascii.eqb c "."), (Ascii.eqb c "/"), (Ascii.eqb c "_"),
    (Ascii.eqb c "-"), (is_digit c), (is_letter c); reflexivity.
Qed.

Lemma star_class items w :
  lang (Star (Class items)) w <->
  Forall (fun c => in_class items c = true) w.
Proof. exact (iter_class items w). Qed.

Lemma test_valid p :
  test VALID_PATH_REGEX p = true <->
  Forall (fun c => allowed_char c = true) (list_ascii_of_string p).
Proof.
  rewrite test_spec. unfold VALID_PATH_REGEX. cbn [from_start to_end body].
  split.
  - intros (pre & mid & post & E & Hmid & Hs & He).
    rewrite E, (Hs eq_refl), (He eq_refl), app_nil_r. cbn [app].
    apply star_class in Hmid.
    eapply Forall_impl; [exact Hmid | ].
    intros c Hc. now rewrite <- class_allowed.
  - intros H. exists [], (list_ascii_of_string p), [].
    rewrite app_nil_r. repeat split; auto.
    apply star_class. eapply Forall_impl; [exact H | ].
    intros c Hc. now rewrite class_allowed.
Qed.

Lemma test_disallowed p :
  test DISALLOWED_PATH_REGEX p = true <-> occurs ".." p \/ occurs "/." p.
Proof.
  rewrite test_spec, !occurs_chars. simpl. split.
  - intros (pre & mid & post & E & Hmid & _).
    destruct Hmid as [(u & v & -> & -> & ->) | (u & v & -> & -> & ->)];
      [left | right]; exists pre, post; exact E.
  - intros [(pre & post & E) | (pre & post & E)].
    + exists pre, ["."; "."]%char, post. repeat split; try discriminate; auto.
      left. exists ["."]%char, ["."]%char. auto.
    + exists pre, ["/"; "."]%char, post. repeat split; try discriminate; auto.
      right. exists ["/"]%char, ["."]%char. auto.
Qed.

Lemma named_forbidden_not_allowed c :
  named_forbidden c = true -> allowed_char c = false.
Proof.
  destruct c as [[] [] [] [] [] [] [] []]; vm_compute;
    solve [reflexivity | discriminate].
Qed.

Lemma validatePath_iff p :
  validatePath p = true <->
  ~ occurs ".." p /\ ~ occurs "/." p /\
  forall c, In c (list_ascii_of_string p) -> allowed_char c = true.
Proof.
  unfold validatePath.
  destruct (test DISALLOWED_PATH_REGEX p) eqn:Hd.
  - apply test_disallowed in Hd. split; [discriminate | tauto].
  - rewrite test_valid, List.Forall_forall. split.
    + intros H. split; [ | split; [ | exact H ] ];
        intros Ho; assert (test DISALLOWED_PATH_REGEX p = true)
          by (apply test_disallowed; auto); congruence.
    + tauto.
Qed.

(** C3.  For every string [p], [validatePath p] returns true if and only
    if [p] contains no occurrence of [..], no occurrence of [/.], and every
    character of [p] is a letter, a digit, a dot, a hyphen, an underscore
    or a forward slash; in particular a [p] that contains a space, [?],
    [%], [<] or a control character is rejected. *)
Theorem validatePath_characterised (p : string) :
  (validatePath p = true <->
     ~ occurs ".." p /\ ~ occurs "/." p /\
     forall c, In c (list_ascii_of_string p) -> allowed_char c = true)
  /\ (forall c, In c (list_ascii_of_string p) ->
                named_forbidden c = true -> validatePath p = false).
Proof.
  pose proof (validatePath_iff p) as Hiff.
  split; [exact Hiff | ].
  intros c Hin Hbad. apply not_true_is_false. intros Hv.
  apply Hiff in Hv as (_ & _ & Hall).
  apply named_forbidden_not_allowed in Hbad.
  rewrite (Hall c Hin) in Hbad. discriminate.
Qed.

(** C10.  [validatePath] applied to the empty string returns true: the
    empty path contains no disallowed sequence, and the requirement on its
    characters holds of it vacuously. *)
Theorem validatePath_empty :
  validatePath "" = true
  /\ test DISALLOWED_PATH_REGEX "" = false
  /\ test VALID_PATH_REGEX "" = true
  /\ ~ occurs ".." "" /\ ~ occurs "/." ""
  /\ (forall c, In c (list_ascii_of_string "") -> allowed_char c = true).
Proof.
  assert (Hv : validatePath "" = true) by reflexivity.
  pose proof Hv as Hv'. apply validatePath_iff in Hv' as (H1 & H2 & H3).
  repeat split; auto.
Qed.

End PathFacts.

(** ** The responder *)

Section ResponderFacts.

Variable url_parse : string -> parsed_url.
Variable extname : string -> string.
Variable mime : gmap string string.

Local Abbreviation path_accepted := (path_accepted url_parse).
Local Abbreviation static_section := (static_section extname mime).
Local Abbreviation onRequest := (onRequest url_parse extname mime).
Local Abbreviation serve := (serve url_parse extname mime).

Implicit Types (cfg : config) (req : request) (w : world).

Lemma append_empty_r a : a +:+ "" = a.
Proof.
  induction a as [ | x a IH ]; [reflexivity | ].
  change (String x (a +:+ "") = String x a). now rewrite IH.
Qed.

(** *** The three ways out of the api block *)

Lemma api_section_matched cfg req u :
  api_section cfg req u =
  match matched cfg u (method req) with
  | Some f =>
      if stream f
      then (route_lookup cfg u (method req) ++ [CallStream f req], FallThrough)
      else (route_lookup cfg u (method req) ++ [SetEncoding "utf8"],
            Return (BodyListeners f u))
  | None => (route_lookup cfg u (method req), FallThrough)
  end.
Proof.
  unfold api_section, matched, route_lookup.
  destruct (api cfg) as [apiOb | ]; [ | reflexivity ].
  destruct (route _ apiOb) as [f | ]; [ | reflexivity ].
  destruct (stream f); reflexivity.
Qed.

Lemma onRequest_rejected cfg req :
  path_accepted req = false -> onRequest cfg req = (respond404, NoListeners).
Proof. intros H. unfold onRequest. now rewrite H. Qed.

Lemma onRequest_unmatched cfg req :
  path_accepted req = true ->
  matched cfg (url_parse (url req)) (method req) = None ->
  onRequest cfg req =
  (route_lookup cfg (url_parse (url req)) (method req)
     ++ fst (static_section cfg (method req) (pathname (url_parse (url req)))),
   snd (static_section cfg (method req) (pathname (url_parse (url req))))).
Proof.
  intros Hp Hm. unfold onRequest.
  rewrite Hp, api_section_matched, Hm. cbn [negb].
  destruct (static_section _ _ _); reflexivity.
Qed.

Lemma onRequest_buffered cfg req f :
  path_accepted req = true ->
  matched cfg (url_parse (url req)) (method req) = Some f ->
  stream f = false ->
  onRequest cfg req =
  (route_lookup cfg (url_parse (url req)) (method req) ++ [SetEncoding "utf8"],
   BodyListeners f (url_parse (url req))).
Proof.
  intros Hp Hm Hs. unfold onRequest.
  now rewrite Hp, api_section_matched, Hm, Hs.
Qed.

Lemma onRequest_stream cfg req f :
  path_accepted req = true ->
  matched cfg (url_parse (url req)) (method req) = Some f ->
  stream f = true ->
  onRequest cfg req =
  ((route_lookup cfg (url_parse (url req)) (method req) ++ [CallStream f req])
     ++ fst (static_section cfg (method req) (pathname (url_parse (url req)))),
   snd (static_section cfg (method req) (pathname (url_parse (url req))))).
Proof.
  intros Hp Hm Hs. unfold onRequest.
  rewrite Hp, api_section_matched, Hm, Hs. cbn [negb].
  destruct (static_section _ _ _); reflexivity.
Qed.

(** A match gives a route lookup: an api object is installed. *)
Lemma matched_route_lookup cfg u m f :
  matched cfg u m = Some f ->
  route_lookup cfg u m = [RouterRoute (getRoutes (pathname u) m)].
Proof.
  unfold matched, route_lookup. destruct (api cfg); [reflexivity | discriminate].
Qed.

(** *** The static block *)

Lemma static_section_not_get cfg m p :
  m <> "GET" ->
  static_section cfg m p =
  ((if staticServer cfg then [] else respond404) ++ respond405, NoListeners).
Proof.
  intros Hm. unfold static_section.
  apply String.eqb_neq in Hm. now rewrite Hm.
Qed.

Lemma static_section_get cfg p :
  static_section cfg "GET" p =
  let fileToServe := if String.eqb p "/" then "index.html" else "." +:+ p in
  ((if staticServer cfg then [] else respond404)
     ++ [CreateReadStream fileToServe;
         WriteHead 200
           (ContentType (mime !! remove_first_dot (extname fileToServe)));
         Pipe],
   FileListeners fileToServe).
Proof. reflexivity. Qed.

(** *** The listeners on the request *)

Lemma on_request_events_complete cfg f u chunks rest : forall requestBody,
  on_request_events cfg f u requestBody (map ReqData chunks ++ ReqEnd :: rest)
  = [WriteHead 200 (ContentType (apiContentType cfg));
     CallApi f u (requestBody +:+ joined chunks);
     ResponseEnd (Some (call f u (requestBody +:+ joined chunks)))].
Proof.
  induction chunks as [ | d chunks IH ]; intros requestBody.
  - cbn. now rewrite append_empty_r.
  - cbn [map app on_request_events joined fold_right].
    rewrite IH, PathFacts.append_assoc. reflexivity.
Qed.

Lemma on_request_events_pending cfg f u chunks : forall requestBody,
  on_request_events cfg f u requestBody (map ReqData chunks) = [].
Proof.
  induction chunks as [ | d chunks IH ]; intros requestBody;
    [reflexivity | apply IH].
Qed.

Lemma on_file_events_no_api evs :
  Forall (fun a => on_api a = false) (on_file_events evs).
Proof.
  induction evs as [ | [data | | ] evs IH ]; cbn; repeat constructor.
  exact IH.
Qed.

(** The answer [respond404] with nothing left to run is the answer of the
    validation step, and of no later step. *)
Lemma onRequest_rejected_iff cfg req :
  onRequest cfg req = (respond404, NoListeners) <-> path_accepted req = false.
Proof.
  split; [ | apply onRequest_rejected ].
  destruct (path_accepted req) eqn:Hp; [ | reflexivity ].
  intros H. exfalso. revert H.
  unfold onRequest. rewrite Hp. cbn [negb].
  unfold api_section, static_section.
  destruct (api cfg) as [apiOb | ].
  - destruct (route _ apiOb) as [f | ]; [destruct (stream f) | ];
      destruct (staticServer cfg), (String.eqb (method req) "GET");
      cbn; discriminate.
  - destruct (staticServer cfg), (String.eqb (method req) "GET");
      cbn; discriminate.
Qed.

(** *** Open failure, and the disabled static server *)

Lemma serve_open_failure cfg req w rest :
  path_accepted req = true ->
  matched cfg (url_parse (url req)) (method req) = None ->
  method req = "GET" ->
  staticServer cfg = true ->
  let p := pathname (url_parse (url req)) in
  let fileToServe := if String.eqb p "/" then "index.html" else "." +:+ p in
  file_events w fileToServe = FileError :: rest ->
  serve cfg req w =
  route_lookup cfg (url_parse (url req)) (method req)
    ++ [CreateReadStream fileToServe;
        WriteHead 200
          (ContentType (mime !! remove_first_dot (extname fileToServe)));
        Pipe]
    ++ respond404.
Proof.
  intros Hp Hm Hget Hs p fileToServe Hev. unfold serve.
  rewrite (onRequest_unmatched _ _ Hp Hm), Hget, static_section_get, Hs.
  cbn [fst snd app after_return]. fold p. fold fileToServe.
  rewrite Hev, <- app_assoc. reflexivity.
Qed.

Lemma serve_disabled_not_get cfg req w :
  path_accepted req = true ->
  matched cfg (url_parse (url req)) (method req) = None ->
  method req <> "GET" ->
  staticServer cfg = false ->
  serve cfg req w =
  route_lookup cfg (url_parse (url req)) (method req)
    ++ respond404 ++ respond405.
Proof.
  intros Hp Hm Hget Hs. unfold serve.
  rewrite (onRequest_unmatched _ _ Hp Hm), (static_section_not_get _ _ _ Hget), Hs.
  cbn [fst snd after_return]. now rewrite app_nil_r.
Qed.

(** *** The claims *)

(** C5.  For every request routed to a buffered handler, the body chunks are
    joined in the order of arrival into one text, and only after the end of
    the stream the handler is called with the parsed url and the full body,
    the status 200 is written with the configured api content type, the
    handler's return value is written as the body and the response is closed;
    before the end of the stream nothing is answered. *)
Theorem buffered_handler_answers cfg req f chunks rest w :
  path_accepted req = true ->
  matched cfg (url_parse (url req)) (method req) = Some f ->
  stream f = false ->
  request_events w = map ReqData chunks ++ ReqEnd :: rest ->
  let reqUrl := url_parse (url req) in
  serve cfg req w =
    [RouterRoute (getRoutes (pathname reqUrl) (method req));
     SetEncoding "utf8";
     WriteHead 200 (ContentType (apiContentType cfg));
     CallApi f reqUrl (joined chunks);
     ResponseEnd (Some (call f reqUrl (joined chunks)))]
  /\ (forall chunks' w',
        request_events w' = map ReqData chunks' ->
        serve cfg req w' =
          [RouterRoute (getRoutes (pathname reqUrl) (method req));
           SetEncoding "utf8"]).
Proof.
  intros Hp Hm Hs Hev reqUrl. unfold serve.
  rewrite (onRequest_buffered _ _ _ Hp Hm Hs), (matched_route_lookup _ _ _ _ Hm).
  cbn [after_return app]. split.
  - rewrite Hev, on_request_events_complete. reflexivity.
  - intros chunks' w' Hev'. rewrite Hev', on_request_events_pending.
    reflexivity.
Qed.

(** C7, as the code has it.  For every request, when no api object is
    installed the request is never routed to an api function, whatever its
    path and method, and no route lookup is made; a request whose path passes
    validation goes on to the static block, and a request whose path fails
    validation is answered 404 before that block. *)
Theorem unset_api_never_routes cfg req w :
  api cfg = None ->
  Forall (fun a => on_api a = false) (serve cfg req w)
  /\ (path_accepted req = true ->
      onRequest cfg req =
      static_section cfg (method req) (pathname (url_parse (url req))))
  /\ (path_accepted req = false ->
      onRequest cfg req = (respond404, NoListeners)).
Proof.
  intros Hapi.
  assert (Hstatic : path_accepted req = true ->
            onRequest cfg req =
            static_section cfg (method req) (pathname (url_parse (url req)))).
  { intros Hp. unfold onRequest, api_section. rewrite Hp, Hapi. cbn [negb].
    destruct (static_section _ _ _); reflexivity. }
  split; [ | split; [exact Hstatic | apply onRequest_rejected] ].
  unfold serve. destruct (path_accepted req) eqn:Hp.
  - rewrite (Hstatic eq_refl). unfold static_section.
    destruct (staticServer cfg), (String.eqb (method req) "GET");
      cbn; repeat constructor; apply on_file_events_no_api.
  - rewrite (onRequest_rejected _ _ Hp). cbn. repeat constructor.
Qed.

(** C8.  For every request with a valid path, a method other than GET, no
    matching api handler and static serving enabled, the responder answers
    with status 405 and the body [405 Method not allowed.] and returns with
    nothing left to run: no file is opened or streamed. *)
Theorem not_get_without_handler_405 cfg req w :
  path_accepted req = true ->
  method req <> "GET" ->
  matched cfg (url_parse (url req)) (method req) = None ->
  staticServer cfg = true ->
  serve cfg req w
    = route_lookup cfg (url_parse (url req)) (method req)
        ++ [WriteHead 405 NoHeaders;
            ResponseEnd (Some "405 Method not allowed.")]
  /\ response_calls (serve cfg req w)
     = [WriteHead 405 NoHeaders; ResponseEnd (Some "405 Method not allowed.")]
  /\ snd (onRequest cfg req) = NoListeners
  /\ Forall (fun a => on_file a = false) (serve cfg req w).
Proof.
  intros Hp Hget Hm Hs. unfold serve.
  rewrite (onRequest_unmatched _ _ Hp Hm), (static_section_not_get _ _ _ Hget), Hs.
  cbn [fst snd app after_return]. rewrite app_nil_r.
  unfold route_lookup. destruct (api cfg); cbn; repeat split; repeat constructor.
Qed.

(** C9.  Path validation reads only the pathname of the request url: two
    requests whose urls have the same pathname, whatever their query strings,
    have the same validation outcome, and when the pathname is valid nothing
    in the rest of the url makes the responder answer 404 at the validation
    step. *)
Theorem validation_reads_pathname_only cfg r1 r2 :
  pathname (url_parse (url r1)) = pathname (url_parse (url r2)) ->
  path_accepted r1 = path_accepted r2
  /\ (onRequest cfg r1 = (respond404, NoListeners) <->
      onRequest cfg r2 = (respond404, NoListeners))
  /\ (validatePath (pathname (url_parse (url r1))) = true ->
      onRequest cfg r2 <> (respond404, NoListeners)).
Proof.
  intros Hsame.
  assert (Heq : path_accepted r1 = path_accepted r2)
    by (unfold path_accepted; now rewrite Hsame).
  split; [exact Heq | split].
  - rewrite !onRequest_rejected_iff, Heq. tauto.
  - intros Hv H. apply onRequest_rejected_iff in H.
    unfold path_accepted in H. rewrite <- Hsame in H. congruence.
Qed.

End ResponderFacts.

(** ** Route resolution *)

Module RouterFacts.











End RouterFacts.

(** The segments of a path, as the documentation of the router gives them:
    the slashes at the two ends leave no segment. *)
Example getRoutes_ends :
  getRoutes "/a/b/" "GET" = ["a"; "b"; "GET"]
  /\ getRoutes "/" "GET" = ["GET"]
  /\ getRoutes "/a//b" "GET" = ["a"; ""; "b"; "GET"].
Proof. repeat split. Qed.

(** ** The responder on concrete requests *)

Module Cases.

Import Examples.

(** C1.  The claim: a request whose route resolution yields an api handler
    never reaches the static fallback.  It holds of a buffered handler
    ([onRequest_buffered]: the responder returns once the listeners on the
    request are installed).  After a stream handler the responder does not
    return: here [GET /s] resolves to a stream handler, the handler is called
    with the two streams, and the responder goes on to open [./s], write the
    status 200 and pipe the file to the response. *)
Theorem stream_handler_then_static_fallback :
  matched with_streamer (Node.url_parse "/s") "GET" = Some streamer
  /\ stream streamer = true
  /\ onRequest with_streamer (get "/s") =
       ([RouterRoute ["s"; "GET"];
         CallStream streamer (get "/s");
         CreateReadStream "./s";
         WriteHead 200 (ContentType None);
         Pipe],
        FileListeners "./s")
  /\ existsb on_file (fst (onRequest with_streamer (get "/s"))) = true.
Proof. vm_compute. repeat split. Qed.

(** C2.  The claim: with static serving disabled, a valid request that
    matches no api handler is answered 404 and nothing else happens.  The
    responder answers 404 and goes on: [POST /x] is then answered 405 as
    well, and for [GET /x] the file [./x] is opened, the status 200 is
    written and the file is piped to the response. *)
Theorem disabled_static_server_goes_on :
  staticServer api_only = false
  /\ matched api_only (Node.url_parse "/x") "POST" = None
  /\ path_accepted Node.url_parse (post "/x") = true
  /\ (forall w, serve api_only (post "/x") w = respond404 ++ respond405)
  /\ onRequest api_only (get "/x") =
       (respond404 ++
          [CreateReadStream "./x"; WriteHead 200 (ContentType None); Pipe],
        FileListeners "./x").
Proof. vm_compute. repeat split. Qed.

(** C4.  The claim: when the file cannot be opened the answer is 404 and no
    status 200 is sent.  The responder writes the status 200 as soon as the
    read stream is created, before the stream can report its error:
    for [GET /missing.txt] with no such file, the response receives
    [writeHead( 200, ... )] and then the calls of [respond404]. *)
Theorem open_failure_after_status_200 :
  path_accepted Node.url_parse (get "/missing.txt") = true
  /\ matched initial (Node.url_parse "/missing.txt") "GET" = None
  /\ staticServer initial = true
  /\ serve initial (get "/missing.txt") (no_files []) =
       [CreateReadStream "./missing.txt";
        WriteHead 200 (ContentType (Some "text/plain"));
        Pipe;
        WriteHead 404 NoHeaders;
        ResponseEnd (Some "404 Not found.")]
  /\ existsb (writes_status 200)
       (serve initial (get "/missing.txt") (no_files [])) = true.
Proof. vm_compute. repeat split. Qed.

(** C5 on the echo handler: [POST /echo] with the body [hello], in one chunk,
    is answered 200 with the configured content type and the body [hello]. *)
Lemma echo_hello :
  (path_accepted Node.url_parse (post "/echo") = true
   /\ matched with_echo (Node.url_parse "/echo") "POST" = Some echo
   /\ stream echo = false)
  /\ serve with_echo (post "/echo") (no_files [ReqData "hello"; ReqEnd]) =
       [RouterRoute ["echo"; "POST"];
        SetEncoding "utf8";
        WriteHead 200 (ContentType (Some "text/plain"));
        CallApi echo {| pathname := "/echo"; query := [] |} "hello";
        ResponseEnd (Some "hello")].
Proof.
  split; [repeat split | ].
  exact (proj1 (buffered_handler_answers
                  Node.url_parse Node.extname Node.mime
                  with_echo (post "/echo") echo ["hello"] []
                  (no_files [ReqData "hello"; ReqEnd])
                  eq_refl eq_refl eq_refl eq_refl)).
Defined.



(** C7 where the path fails validation: no api object is installed and the
    request is [POST /../x].  It is answered 404 by the validation step; the
    static block would have answered 405. *)
Lemma rejected_path_skips_static_block :
  api initial = None
  /\ onRequest initial (post "/../x") = (respond404, NoListeners)
  /\ static_section Node.extname Node.mime initial "POST"
       (pathname (Node.url_parse "/../x")) = (respond405, NoListeners)
  /\ onRequest initial (post "/../x")
     <> static_section Node.extname Node.mime initial "POST"
          (pathname (Node.url_parse "/../x")).
Proof. vm_compute. repeat split. discriminate. Qed.

(** C7 on [GET /index.html] with no api object installed. *)
Lemma unset_api_index :
  api initial = None
  /\ Forall (fun a => on_api a = false)
       (serve initial (get "/index.html") (no_files []))
  /\ onRequest initial (get "/index.html") =
       static_section Node.extname Node.mime initial "GET" "/index.html".
Proof.
  pose proof (unset_api_never_routes Node.url_parse Node.extname Node.mime
                initial (get "/index.html") (no_files []) eq_refl)
    as (H1 & H2 & _).
  split; [reflexivity | split; [exact H1 | exact (H2 eq_refl)] ].
Defined.

(** C8 on [POST /x] with the initial configuration. *)
Lemma post_without_handler :
  (path_accepted Node.url_parse (post "/x") = true
   /\ method (post "/x") <> "GET"
   /\ matched initial (Node.url_parse "/x") "POST" = None
   /\ staticServer initial = true)
  /\ serve initial (post "/x") (no_files [])
     = [WriteHead 405 NoHeaders; ResponseEnd (Some "405 Method not allowed.")].
Proof.
  assert (Hm : method (post "/x") <> "GET") by discriminate.
  split; [repeat split; exact Hm | ].
  exact (proj1 (not_get_without_handler_405
                  Node.url_parse Node.extname Node.mime
                  initial (post "/x") (no_files [])
                  eq_refl Hm eq_refl eq_refl)).
Defined.

(** C9 on two urls with the pathname [/a/b]: the query of the second holds
    [..], [%] and [<]. *)
Lemma query_is_not_validated :
  pathname (Node.url_parse "/a/b") = pathname (Node.url_parse "/a/b?x=../..&y=%20<")
  /\ path_accepted Node.url_parse (get "/a/b") = true
  /\ path_accepted Node.url_parse (get "/a/b?x=../..&y=%20<") = true
  /\ onRequest initial (get "/a/b?x=../..&y=%20<") <> (respond404, NoListeners).
Proof.
  pose proof (validation_reads_pathname_only
                Node.url_parse Node.extname Node.mime initial
                (get "/a/b") (get "/a/b?x=../..&y=%20<") eq_refl)
    as (H1 & _ & H3).
  split; [reflexivity | split; [reflexivity | split] ].
  - rewrite <- H1. reflexivity.
  - exact (H3 eq_refl).
Defined.

End Cases.

(** ** More on path validation and on the file served *)

Module PathMore.

Import PathSpec PathScan PathFacts.

Lemma has_pair_occurs c1 c2 w :
  has_pair c1 c2 w = true <-> exists pre post, w = pre ++ [c1; c2] ++ post.
Proof.
  induction w as [ | x [ | y w' ] IH ].
  - split; [discriminate | intros ([ | ? ? ] & post & E); discriminate].
  - split; [discriminate | ].
    intros ([ | ? [ | ? ? ] ] & post & E); discriminate.
  - change (has_pair c1 c2 (x :: y :: w'))
      with ((Ascii.eqb x c1 && Ascii.eqb y c2) || has_pair c1 c2 (y :: w')).
    rewrite orb_true_iff, andb_true_iff, IH, !Ascii.eqb_eq. split.
    + intros [[-> ->] | (pre & post & E)].
      * exists [], w'. reflexivity.
      * exists (x :: pre), post. cbn. now rewrite E.
    + intros ([ | a pre ] & post & E); cbn in E.
      * injection E as -> -> _. auto.
      * injection E as _ E. right. exists pre, post. exact E.
Qed.

Lemma has_pair_app c1 c2 x y :
  has_pair c1 c2 (x ++ y)
  = has_pair c1 c2 x || has_pair c1 c2 y || (ends_with c1 x && starts_with c2 y).
Proof.
  induction x as [ | a [ | b x' ] IH ].
  - cbn. now rewrite orb_false_r.
  - destruct y as [ | b y' ]; cbn.
    + now rewrite andb_false_r.
    + apply orb_comm.
  - change (has_pair c1 c2 ((a :: b :: x') ++ y))
      with ((Ascii.eqb a c1 && Ascii.eqb b c2)
            || has_pair c1 c2 ((b :: x') ++ y)).
    change (has_pair c1 c2 (a :: b :: x'))
      with ((Ascii.eqb a c1 && Ascii.eqb b c2) || has_pair c1 c2 (b :: x')).
    change (ends_with c1 (a :: b :: x')) with (ends_with c1 (b :: x')).
    rewrite IH, !orb_assoc. reflexivity.
Qed.

(** [validatePath] as one scan of the characters. *)
Lemma validatePath_scan p :
  validatePath p
  = negb (has_pair "." "." (list_ascii_of_string p))
    && negb (has_pair "/" "." (list_ascii_of_string p))
    && forallb allowed_char (list_ascii_of_string p).
Proof.
  apply eq_true_iff_eq.
  rewrite validatePath_iff, !andb_true_iff, !negb_true_iff, forallb_forall.
  rewrite !occurs_chars. cbn [list_ascii_of_string].
  rewrite <- !has_pair_occurs, !not_true_iff_false. tauto.
Qed.

Lemma validatePath_dot_prefix p :
  validatePath ("." +:+ p) = validatePath p && negb (begins "." p).
Proof.
  rewrite !validatePath_scan. unfold begins.
  change (list_ascii_of_string ("." +:+ p))
    with (["."%char] ++ list_ascii_of_string p).
  rewrite !has_pair_app, forallb_app. cbn.
  destruct (has_pair "." "." (list_ascii_of_string p)),
    (has_pair "/" "." (list_ascii_of_string p)),
    (forallb allowed_char (list_ascii_of_string p)),
    (starts_with "." (list_ascii_of_string p)); reflexivity.
Qed.

Lemma validatePath_join_bool a b :
  validatePath (a +:+ "/" +:+ b)
  = validatePath a && validatePath b && negb (begins "." b).
Proof.
  rewrite !validatePath_scan, !chars_append. unfold begins.
  change (list_ascii_of_string "/" ++ list_ascii_of_string b)
    with (["/"%char] ++ list_ascii_of_string b).
  rewrite !has_pair_app, !forallb_app. cbn.
  rewrite !andb_false_r.
  destruct (has_pair "." "." (list_ascii_of_string a)),
    (has_pair "/" "." (list_ascii_of_string a)),
    (forallb allowed_char (list_ascii_of_string a)),
    (has_pair "." "." (list_ascii_of_string b)),
    (has_pair "/" "." (list_ascii_of_string b)),
    (forallb allowed_char (list_ascii_of_string b)),
    (starts_with "." (list_ascii_of_string b)); reflexivity.
Qed.

Lemma begins_slash_not_dot p : begins "/" p = true -> begins "." p = false.
Proof.
  unfold begins. destruct (list_ascii_of_string p) as [ | x w ]; cbn;
    [reflexivity | ].
  rewrite Ascii.eqb_eq. intros ->. reflexivity.
Qed.

(** X1.  Every piece of an accepted path is accepted: if [a ++ b ++ c] is
    valid then so is [b].  Hence a path that has a rejected piece is rejected,
    whatever surrounds the piece. *)
Theorem validatePath_piece a b c :
  validatePath (a +:+ b +:+ c) = true -> validatePath b = true.
Proof.
  rewrite !validatePath_scan, !chars_append, !has_pair_app, !forallb_app.
  rewrite !andb_true_iff, !negb_true_iff, !orb_false_iff.
  tauto.
Qed.

(** X2.  Two paths joined by a slash are accepted exactly when both are
    accepted and the second does not begin with a dot. *)
Theorem validatePath_join a b :
  validatePath (a +:+ "/" +:+ b) = true <->
  validatePath a = true /\ validatePath b = true /\ begins "." b = false.
Proof.
  rewrite validatePath_join_bool, !andb_true_iff, negb_true_iff. tauto.
Qed.

(** X3.  The file served for an accepted path that begins with a slash is
    [index.html] or the path behind a dot, and its name itself passes the
    validator: it has no [..] and no segment that begins with a dot after a
    slash. *)
Theorem fileToServe_stays_below p :
  validatePath p = true ->
  begins "/" p = true ->
  (fileToServe p = "index.html" \/ fileToServe p = "." +:+ p)
  /\ validatePath (fileToServe p) = true
  /\ ~ occurs ".." (fileToServe p)
  /\ ~ occurs "/." (fileToServe p).
Proof.
  intros Hv Hb.
  assert (Hf : validatePath (fileToServe p) = true).
  { unfold fileToServe. destruct (String.eqb p "/"); [reflexivity | ].
    now rewrite validatePath_dot_prefix, Hv, (begins_slash_not_dot _ Hb). }
  split; [ | split; [exact Hf | ] ].
  - unfold fileToServe. destruct (String.eqb p "/"); auto.
  - apply validatePath_iff in Hf. tauto.
Qed.

(** X4.  The validator does not ask for a leading slash.  Where [/q] is
    accepted, so is [./q], and the file served for [./q] is [../q]. *)
Theorem dot_slash_path_maps_above q :
  validatePath ("/" +:+ q) = true ->
  validatePath ("./" +:+ q) = true
  /\ fileToServe ("./" +:+ q) = "../" +:+ q.
Proof.
  intros Hv. split.
  - change ("./" +:+ q) with ("." +:+ "/" +:+ q).
    rewrite validatePath_dot_prefix, Hv. reflexivity.
  - reflexivity.
Qed.

Lemma piece_of_stuff_items :
  validatePath ("/stuff" +:+ "/items" +:+ ".json") = true
  /\ validatePath "/items" = true.
Proof.
  split; [reflexivity | ].
  apply (validatePath_piece "/stuff" "/items" ".json"). reflexivity.
Defined.

Lemma file_of_stuff_items :
  (validatePath "/stuff/items.json" = true
   /\ begins "/" "/stuff/items.json" = true)
  /\ fileToServe "/stuff/items.json" = "./stuff/items.json"
  /\ validatePath (fileToServe "/stuff/items.json") = true.
Proof.
  pose proof (fileToServe_stays_below "/stuff/items.json" eq_refl eq_refl)
    as (_ & H & _).
  split; [split; reflexivity | split; [reflexivity | exact H] ].
Defined.

Lemma dot_slash_secret :
  validatePath "/secret" = true
  /\ validatePath "./secret" = true
  /\ fileToServe "./secret" = "../secret".
Proof.
  split; [reflexivity | ].
  exact (dot_slash_path_maps_above "secret" eq_refl).
Defined.

End PathMore.

(** ** More on the responder *)

Section ResponderMore.

Variable url_parse : string -> parsed_url.
Variable extname : string -> string.
Variable mime : gmap string string.

Local Abbreviation path_accepted := (path_accepted url_parse).
Local Abbreviation static_section := (static_section extname mime).
Local Abbreviation onRequest := (onRequest url_parse extname mime).
Local Abbreviation serve := (serve url_parse extname mime).
Local Abbreviation static_run := (static_run extname mime).
Local Abbreviation served := (served url_parse extname mime).

Implicit Types (cfg : config) (req : request) (w : world).

(** *** The shape of what is done, case by case *)

Lemma serve_rejected cfg req w :
  path_accepted req = false -> serve cfg req w = respond404.
Proof.
  intros Hp. unfold serve.
  now rewrite (onRequest_rejected url_parse extname mime _ _ Hp).
Qed.

Lemma serve_buffered cfg req w f :
  path_accepted req = true ->
  matched cfg (url_parse (url req)) (method req) = Some f ->
  stream f = false ->
  serve cfg req w =
  [RouterRoute (getRoutes (pathname (url_parse (url req))) (method req));
   SetEncoding "utf8"]
    ++ on_request_events cfg f (url_parse (url req)) "" (request_events w).
Proof.
  intros Hp Hm Hs. unfold serve.
  rewrite (onRequest_buffered url_parse extname mime _ _ _ Hp Hm Hs).
  now rewrite (matched_route_lookup _ _ _ _ Hm).
Qed.

Lemma static_section_run cfg m p w :
  fst (static_section cfg m p) ++ after_return cfg (snd (static_section cfg m p)) w
  = static_run cfg m p w.
Proof.
  unfold static_section, static_run.
  destruct (String.eqb m "GET"); cbn [negb fst snd after_return].
  - now rewrite <- app_assoc.
  - now rewrite app_nil_r.
Qed.

Lemma serve_unmatched cfg req w :
  path_accepted req = true ->
  matched cfg (url_parse (url req)) (method req) = None ->
  serve cfg req w =
  route_lookup cfg (url_parse (url req)) (method req)
    ++ static_run cfg (method req) (pathname (url_parse (url req))) w.
Proof.
  intros Hp Hm. unfold serve.
  rewrite (onRequest_unmatched url_parse extname mime _ _ Hp Hm).
  now rewrite <- app_assoc, static_section_run.
Qed.

Lemma serve_stream cfg req w f :
  path_accepted req = true ->
  matched cfg (url_parse (url req)) (method req) = Some f ->
  stream f = true ->
  serve cfg req w =
  [RouterRoute (getRoutes (pathname (url_parse (url req))) (method req));
   CallStream f req]
    ++ static_run cfg (method req) (pathname (url_parse (url req))) w.
Proof.
  intros Hp Hm Hs. unfold serve.
  rewrite (onRequest_stream url_parse extname mime _ _ _ Hp Hm Hs).
  rewrite (matched_route_lookup _ _ _ _ Hm).
  now rewrite <- !app_assoc, static_section_run.
Qed.

Lemma serve_cases cfg req w : served cfg req w.
Proof.
  destruct (path_accepted req) eqn:Hp.
  - destruct (matched cfg (url_parse (url req)) (method req)) as [f | ] eqn:Hm.
    + destruct (stream f) eqn:Hs.
      * eapply served_stream; eauto using serve_stream.
      * eapply served_buffered; eauto using serve_buffered.
    + apply served_unmatched; auto using serve_unmatched.
  - apply served_rejected; auto using serve_rejected.
Qed.


(** *** Where an action can come from *)

Lemma in_route_lookup a cfg u m :
  In a (route_lookup cfg u m) -> a = RouterRoute (getRoutes (pathname u) m).
Proof.
  unfold route_lookup. destruct (api cfg); cbn; [ | tauto ].
  intros [<- | []]. reflexivity.
Qed.

Lemma in_on_file_events a evs :
  In a (on_file_events evs) ->
  (exists data, a = ResponseWrite data) \/ In a respond404 \/ a = ResponseEnd None.
Proof.
  induction evs as [ | [data | | ] evs IH ]; cbn [on_file_events].
  - intros [].
  - intros [<- | H]; [eauto | auto].
  - auto.
  - intros [<- | [<- | []]]; auto.
Qed.

Lemma in_on_request_events a cfg f u evs : forall requestBody,
  In a (on_request_events cfg f u requestBody evs) ->
  exists chunks rest,
    evs = map ReqData chunks ++ ReqEnd :: rest
    /\ In a [WriteHead 200 (ContentType (apiContentType cfg));
             CallApi f u (requestBody +:+ joined chunks);
             ResponseEnd (Some (call f u (requestBody +:+ joined chunks)))].
Proof.
  induction evs as [ | [data | ] evs IH ]; intros requestBody;
    cbn [on_request_events].
  - intros [].
  - intros H. apply IH in H as (chunks & rest & -> & H).
    exists (data :: chunks), rest. split; [reflexivity | ].
    cbn [joined fold_right]. fold (joined chunks).
    now rewrite <- PathFacts.append_assoc.
  - intros H. exists [], evs. split; [reflexivity | ].
    cbn [joined fold_right]. now rewrite append_empty_r.
Qed.

Lemma in_static_run a cfg m p w :
  In a (static_run cfg m p w) ->
  (staticServer cfg = false /\ In a respond404)
  \/ (m <> "GET" /\ In a respond405)
  \/ (m = "GET" /\
      (a = CreateReadStream (fileToServe p)
       \/ a = WriteHead 200
                (ContentType (mime !! mime_key extname (fileToServe p)))
       \/ a = Pipe
       \/ In a (on_file_events (file_events w (fileToServe p))))).
Proof.
  unfold static_run. rewrite in_app_iff. intros [H | H].
  - destruct (staticServer cfg); [destruct H | auto].
  - destruct (String.eqb_spec m "GET") as [-> | Hne].
    + right. right. split; [reflexivity | ].
      cbn in H. destruct H as [<- | [<- | [<- | H]]]; auto.
    + auto.
Qed.

Lemma count_ends_app t1 t2 : count_ends (t1 ++ t2) = count_ends t1 + count_ends t2.
Proof. unfold count_ends. now rewrite List.filter_app, length_app. Qed.


Lemma count_ends_request cfg f u evs : forall requestBody,
  count_ends (on_request_events cfg f u requestBody evs) <= 1.
Proof.
  induction evs as [ | [data | ] evs IH ]; intros requestBody.
  - cbn. auto.
  - apply IH.
  - cbn. auto.
Qed.


Lemma on_file_events_complete chunks rest :
  on_file_events (map FileData chunks ++ FileEnd :: rest)
  = map ResponseWrite chunks ++ [ResponseEnd None; ResponseEnd None].
Proof.
  induction chunks as [ | d chunks IH ]; cbn; [ | rewrite IH ]; reflexivity.
Qed.

(** *** What is done, and when *)

(** X5.  A file is opened only for a GET request whose path passed
    validation and for which no buffered handler was found, and the file
    opened is [index.html] for the path [/] and the path behind a dot
    otherwise. *)
Theorem file_opened_only_for_get cfg req w file :
  In (CreateReadStream file) (serve cfg req w) ->
  path_accepted req = true
  /\ method req = "GET"
  /\ file = fileToServe (pathname (url_parse (url req)))
  /\ (forall f, matched cfg (url_parse (url req)) (method req) = Some f ->
                stream f = true).
Proof.
  intros Hin.
  assert (Hstatic : forall p,
            In (CreateReadStream file) (static_run cfg (method req) p w) ->
            method req = "GET" /\ file = fileToServe p).
  { intros p H. apply in_static_run in H
      as [[_ H] | [[_ H] | [Hget [H | [H | [H | H]]]]]];
      try (cbn in H; intuition discriminate); try discriminate.
    - injection H as ->. auto.
    - apply in_on_file_events in H as [[d H] | [H | H]];
        try discriminate; cbn in H; intuition discriminate. }
  destruct (serve_cases cfg req w) as [Hp E | f Hp Hm Hs E | f Hp Hm Hs E | Hp Hm E];
    rewrite E in Hin.
  - cbn in Hin. intuition discriminate.
  - cbn in Hin. destruct Hin as [H | [H | H]]; try discriminate.
    apply in_on_request_events in H as (? & ? & _ & H).
    cbn in H. intuition discriminate.
  - cbn in Hin. destruct Hin as [H | [H | H]]; try discriminate.
    apply Hstatic in H as [Hget ->]. repeat split; auto.
    intros f' Hf'. congruence.
  - apply in_app_iff in Hin as [H | H].
    + apply in_route_lookup in H. discriminate.
    + apply Hstatic in H as [Hget ->]. repeat split; auto.
      intros f' Hf'. congruence.
Qed.

(** X6.  An api function is called the common way only if route resolution
    found it for this request and it is not a stream function; it is given
    the parsed url of the request and the chunks that arrived before the end
    of the body, joined in order.  It is called the stream way only if route
    resolution found it and it is a stream function; it is given the request
    itself. *)
Theorem api_function_called_as_resolved cfg req w f :
  (forall reqUrl requestBody,
     In (CallApi f reqUrl requestBody) (serve cfg req w) ->
     path_accepted req = true
     /\ matched cfg (url_parse (url req)) (method req) = Some f
     /\ stream f = false
     /\ reqUrl = url_parse (url req)
     /\ exists chunks rest,
          request_events w = map ReqData chunks ++ ReqEnd :: rest
          /\ requestBody = joined chunks)
  /\ (forall request,
        In (CallStream f request) (serve cfg req w) ->
        path_accepted req = true
        /\ matched cfg (url_parse (url req)) (method req) = Some f
        /\ stream f = true
        /\ request = req).
Proof.
  assert (Hstatic : forall a p,
            In a (static_run cfg (method req) p w) -> on_api a = false).
  { intros a p H. apply in_static_run in H
      as [[_ H] | [[_ H] | [Hget [-> | [-> | [-> | H]]]]]];
      try reflexivity; try (cbn in H; intuition (subst; reflexivity)).
    apply in_on_file_events in H as [[d ->] | [H | ->]]; try reflexivity.
    cbn in H. intuition (subst; reflexivity). }
  split.
  - intros reqUrl requestBody Hin.
    destruct (serve_cases cfg req w)
      as [Hp E | g Hp Hm Hs E | g Hp Hm Hs E | Hp Hm E]; rewrite E in Hin.
    + cbn in Hin. intuition discriminate.
    + cbn in Hin. destruct Hin as [H | [H | H]]; try discriminate.
      apply in_on_request_events in H as (chunks & rest & Hev & H).
      cbn in H. destruct H as [H | [H | [H | []]]]; try discriminate.
      injection H as <- <- <-. repeat split; auto. eauto.
    + cbn in Hin. destruct Hin as [H | [H | H]]; try discriminate.
      apply Hstatic in H. discriminate.
    + apply in_app_iff in Hin as [H | H].
      * apply in_route_lookup in H. discriminate.
      * apply Hstatic in H. discriminate.
  - intros request Hin.
    destruct (serve_cases cfg req w)
      as [Hp E | g Hp Hm Hs E | g Hp Hm Hs E | Hp Hm E]; rewrite E in Hin.
    + cbn in Hin. intuition discriminate.
    + cbn in Hin. destruct Hin as [H | [H | H]]; try discriminate.
      apply in_on_request_events in H as (chunks & rest & Hev & H).
      cbn in H. intuition discriminate.
    + cbn in Hin. destruct Hin as [H | [H | H]]; try discriminate.
      * injection H as <- <-. auto.
      * apply Hstatic in H. discriminate.
    + apply in_app_iff in Hin as [H | H].
      * apply in_route_lookup in H. discriminate.
      * apply Hstatic in H. discriminate.
Qed.



Lemma matched_same_pathname cfg u1 u2 m :
  pathname u1 = pathname u2 ->
  matched cfg u1 m = matched cfg u2 m
  /\ route_lookup cfg u1 m = route_lookup cfg u2 m.
Proof. intros E. unfold matched, route_lookup. now rewrite E. Qed.


(** X8.  The only heads the responder writes are 404 and 405, both without
    headers, and 200 with a content type; 405 is written only for a valid
    path with a method other than GET, 200 with the api content type only
    for a buffered handler, and 200 with the content type of a file only for
    a GET request with a valid path. *)
Theorem heads_written cfg req w status hs :
  In (WriteHead status hs) (serve cfg req w) ->
  (status = 404%Z /\ hs = NoHeaders)
  \/ (status = 405%Z /\ hs = NoHeaders
      /\ path_accepted req = true /\ method req <> "GET")
  \/ (status = 200%Z /\ hs = ContentType (apiContentType cfg)
      /\ exists f, matched cfg (url_parse (url req)) (method req) = Some f
                   /\ stream f = false)
  \/ (status = 200%Z
      /\ hs = ContentType
                (mime !! mime_key extname
                           (fileToServe (pathname (url_parse (url req)))))
      /\ path_accepted req = true /\ method req = "GET").
Proof.
  intros Hin.
  assert (H404 : In (WriteHead status hs) respond404 ->
                 status = 404%Z /\ hs = NoHeaders).
  { cbn. intros [H | [H | []]]; [injection H as <- <-; auto | discriminate]. }
  assert (Hstatic : forall p,
            In (WriteHead status hs) (static_run cfg (method req) p w) ->
            (status = 404%Z /\ hs = NoHeaders)
            \/ (status = 405%Z /\ hs = NoHeaders /\ method req <> "GET")
            \/ (status = 200%Z
                /\ hs = ContentType (mime !! mime_key extname (fileToServe p))
                /\ method req = "GET")).
  { intros p H. apply in_static_run in H
      as [[_ H] | [[Hne H] | [Hget [H | [H | [H | H]]]]]]; try discriminate.
    - auto.
    - cbn in H. destruct H as [H | [H | []]]; [ | discriminate ].
      injection H as <- <-. auto.
    - injection H as -> ->. auto.
    - apply in_on_file_events in H as [[d H] | [H | H]]; try discriminate.
      auto. }
  destruct (serve_cases cfg req w)
    as [Hp E | f Hp Hm Hf E | f Hp Hm Hf E | Hp Hm E]; rewrite E in Hin.
  - auto.
  - cbn in Hin. destruct Hin as [H | [H | H]]; try discriminate.
    apply in_on_request_events in H as (chunks & rest & _ & H).
    cbn in H. destruct H as [H | [H | [H | []]]]; try discriminate.
    injection H as <- <-. right. right. left. eauto.
  - cbn in Hin. destruct Hin as [H | [H | H]]; try discriminate.
    apply Hstatic in H. intuition.
  - apply in_app_iff in Hin as [H | H].
    + apply in_route_lookup in H. discriminate.
    + apply Hstatic in H. intuition.
Qed.

(** X9.  For a GET request with a valid path, no handler found and the
    static server enabled, when the file is read to its end the responder
    opens the file, writes 200 with the content type of the file, the chunks
    of the file are forwarded in order and then the response is ended, by
    [pipe] and again by the ['end'] listener. *)
Theorem file_served_in_order cfg req w chunks rest :
  path_accepted req = true ->
  matched cfg (url_parse (url req)) (method req) = None ->
  method req = "GET" ->
  staticServer cfg = true ->
  let file := fileToServe (pathname (url_parse (url req))) in
  file_events w file = map FileData chunks ++ FileEnd :: rest ->
  serve cfg req w =
  route_lookup cfg (url_parse (url req)) (method req)
    ++ [CreateReadStream file;
        WriteHead 200 (ContentType (mime !! mime_key extname file));
        Pipe]
    ++ map ResponseWrite chunks ++ [ResponseEnd None; ResponseEnd None].
Proof.
  intros Hp Hm Hget Hs file Hev.
  rewrite (serve_unmatched _ _ _ Hp Hm). unfold static_run.
  rewrite Hs, Hget, String.eqb_refl. cbn [app]. fold file.
  rewrite Hev, on_file_events_complete. reflexivity.
Qed.

(** X10.  When no handler is found, what is done for a request depends on
    its url through the pathname only: two requests with the same method and
    the same pathname are served alike, whatever else is in their urls. *)
Theorem serving_reads_pathname_only cfg r1 r2 w :
  method r1 = method r2 ->
  pathname (url_parse (url r1)) = pathname (url_parse (url r2)) ->
  matched cfg (url_parse (url r1)) (method r1) = None ->
  serve cfg r1 w = serve cfg r2 w.
Proof.
  intros Em Ep Hm.
  assert (Ea : path_accepted r1 = path_accepted r2)
    by (unfold path_accepted; now rewrite Ep).
  destruct (matched_same_pathname cfg _ _ (method r1) Ep) as [Ematch Elook].
  destruct (path_accepted r1) eqn:Hp.
  - rewrite (serve_unmatched _ _ _ Hp Hm).
    symmetry in Ea. rewrite Ematch, Em in Hm.
    rewrite (serve_unmatched _ _ _ Ea Hm). now rewrite Elook, Ep, Em.
  - rewrite (serve_rejected _ _ _ Hp).
    symmetry in Ea. now rewrite (serve_rejected _ _ _ Ea).
Qed.

(** X11.  The content type of a file is looked up in the mime table under
    the extension of the file without its dot, and under the empty key when
    the file has no extension. *)
Theorem content_type_by_extension cfg req w :
  path_accepted req = true ->
  matched cfg (url_parse (url req)) (method req) = None ->
  method req = "GET" ->
  let file := fileToServe (pathname (url_parse (url req))) in
  (forall e, extname file = "." +:+ e ->
             In (WriteHead 200 (ContentType (mime !! e))) (serve cfg req w))
  /\ (extname file = "" ->
      In (WriteHead 200 (ContentType (mime !! ""))) (serve cfg req w)).
Proof.
  intros Hp Hm Hget file.
  assert (Hin : In (WriteHead 200 (ContentType (mime !! mime_key extname file)))
                  (serve cfg req w)).
  { rewrite (serve_unmatched _ _ _ Hp Hm). unfold static_run.
    rewrite Hget, String.eqb_refl. fold file.
    rewrite !in_app_iff. right. right. left. cbn. auto. }
  unfold mime_key in Hin. split.
  - intros e He. now rewrite He in Hin.
  - intros He. now rewrite He in Hin.
Qed.

(** X12.  When a buffered handler is found, nothing of the static block
    happens, whatever the method and whether or not the static server is
    enabled: no file is opened or forwarded, neither 404 nor 405 is written,
    and the response is ended at most once. *)
Theorem buffered_handler_skips_static_block cfg req w f :
  path_accepted req = true ->
  matched cfg (url_parse (url req)) (method req) = Some f ->
  stream f = false ->
  Forall (fun a => on_file a = false
                   /\ writes_status 404 a = false
                   /\ writes_status 405 a = false)
         (serve cfg req w)
  /\ count_ends (serve cfg req w) <= 1.
Proof.
  intros Hp Hm Hf. rewrite (serve_buffered _ _ _ _ Hp Hm Hf). split.
  - apply List.Forall_forall. intros a Hin. cbn in Hin.
    destruct Hin as [<- | [<- | H]]; [cbn; auto | cbn; auto | ].
    apply in_on_request_events in H as (chunks & rest & _ & H).
    cbn in H. destruct H as [<- | [<- | [<- | []]]]; cbn; auto.
  - rewrite count_ends_app. cbn. apply count_ends_request.
Qed.

Lemma on_request_events_same_type cfg cfg' f u evs : forall requestBody,
  apiContentType cfg = apiContentType cfg' ->
  on_request_events cfg f u requestBody evs
  = on_request_events cfg' f u requestBody evs.
Proof.
  induction evs as [ | [data | ] evs IH ]; intros requestBody E;
    cbn [on_request_events]; [reflexivity | now apply IH | now rewrite E].
Qed.

(** X13.  Disabling the static server leaves the answer of a buffered
    handler as it was. *)
Theorem disableStaticServer_keeps_api_answers cfg req w f :
  path_accepted req = true ->
  matched cfg (url_parse (url req)) (method req) = Some f ->
  stream f = false ->
  serve (disableStaticServer cfg) req w = serve cfg req w.
Proof.
  intros Hp Hm Hf.
  rewrite (serve_buffered cfg _ _ _ Hp Hm Hf).
  rewrite (serve_buffered (disableStaticServer cfg) _ _ f Hp Hm Hf).
  f_equal. now apply on_request_events_same_type.
Qed.

(** X14.  When the mime table holds a content type for [ext], after
    [setApiContentType( ext )] the calls a buffered answer makes on the
    response are the head 200 with that content type and the end with what
    the handler returned. *)
Theorem setApiContentType_sets_api_header cfg req w f ext ct chunks rest :
  mime !! ext = Some ct ->
  path_accepted req = true ->
  matched cfg (url_parse (url req)) (method req) = Some f ->
  stream f = false ->
  request_events w = map ReqData chunks ++ ReqEnd :: rest ->
  response_calls (serve (setApiContentType mime ext cfg) req w) =
  [WriteHead 200 (ContentType (Some ct));
   ResponseEnd (Some (call f (url_parse (url req)) (joined chunks)))].
Proof.
  intros Hct Hp Hm Hf Hev.
  rewrite (serve_buffered (setApiContentType mime ext cfg) _ _ f Hp Hm Hf).
  rewrite Hev, on_request_events_complete.
  cbn. now rewrite Hct.
Qed.

(** X15.  [setApiContentType] changes nothing for a request that no
    buffered handler answers. *)
Theorem setApiContentType_keeps_other_answers cfg req w ext :
  (forall f, matched cfg (url_parse (url req)) (method req) = Some f ->
             stream f = true) ->
  serve (setApiContentType mime ext cfg) req w = serve cfg req w.
Proof.
  intros Hstream.
  destruct (serve_cases cfg req w)
    as [Hp E | f Hp Hm Hf E | f Hp Hm Hf E | Hp Hm E]; rewrite E.
  - apply (serve_rejected _ _ _ Hp).
  - rewrite (Hstream _ Hm) in Hf. discriminate.
  - apply (serve_stream (setApiContentType mime ext cfg) _ _ f Hp Hm Hf).
  - apply (serve_unmatched (setApiContentType mime ext cfg) _ _ Hp Hm).
Qed.

(** *** Sequences of setter calls *)

(** X16.  After any sequence of setter calls the static server is enabled
    exactly when it was enabled before and the sequence holds no call of
    [disableStaticServer]: once disabled, no setter enables it again. *)
Theorem static_server_stays_disabled cs : forall cfg,
  staticServer (call_setters mime cs cfg)
  = staticServer cfg && negb (existsb is_disable cs).
Proof.
  induction cs as [ | c cs IH ]; intros cfg.
  - cbn. now rewrite andb_true_r.
  - change (call_setters mime (c :: cs) cfg)
      with (call_setters mime cs (call_setter mime c cfg)).
    rewrite IH. destruct c; cbn; [reflexivity | reflexivity | ].
    now rewrite andb_false_r.
Qed.

(** X17.  After any sequence of setter calls the api object is the argument
    of the last [setApi], and the api content type is what the mime table
    holds for the extension of the last [setApiContentType]; each is as
    before when the sequence has no such call. *)
Theorem setters_last_call_wins cs : forall cfg,
  api (call_setters mime cs cfg) = last_api cs (api cfg)
  /\ apiContentType (call_setters mime cs cfg)
     = match last_ext cs with
       | Some ext => mime !! ext
       | None => apiContentType cfg
       end.
Proof.
  induction cs as [ | c cs IH ]; intros cfg; [split; reflexivity | ].
  change (call_setters mime (c :: cs) cfg)
    with (call_setters mime cs (call_setter mime c cfg)).
  destruct (IH (call_setter mime c cfg)) as [-> ->].
  destruct c; cbn; (split; [reflexivity | ]);
    destruct (last_ext cs); reflexivity.
Qed.

End ResponderMore.

(** ** Starting the server *)

Module BootstrapFacts.

Import Bootstrap.

Lemma or_else_default a b d :
  truthy d = true -> truthy (or_else (or_else a b) d) = true.
Proof.
  intros Hd. unfold or_else.
  destruct (truthy a) eqn:Ha; rewrite ?Ha; [reflexivity | ].
  destruct (truthy b) eqn:Hb; rewrite ?Hb; [reflexivity | exact Hd].
Qed.

(** X18.  [server] and [httpsServer] listen on the same port and address
    for the same arguments, and never on a falsy one: a port or an address
    that is left out, zero or the empty string gives way to the command-line
    argument (the third for the port, the fourth for the address) when that
    is present and not empty, and to 8080 and 127.0.0.1 otherwise.  An
    argument that is given and truthy is used as it is. *)
Theorem listen_arguments_resolved (port ip : value) (argv : list string) :
  exists p i,
    listen_args (server port ip argv) = [(p, i)]
    /\ (forall options,
          listen_args (httpsServer options port ip argv) = [(p, i)])
    /\ truthy p = true /\ truthy i = true
    /\ (truthy port = true -> p = port)
    /\ (truthy ip = true -> i = ip)
    /\ (truthy port = false ->
        forall s, argv !! 2 = Some s -> s <> "" -> p = Text s)
    /\ (truthy ip = false ->
        forall s, argv !! 3 = Some s -> s <> "" -> i = Text s)
    /\ (truthy port = false ->
        argv !! 2 = None \/ argv !! 2 = Some "" -> p = Number 8080)
    /\ (truthy ip = false ->
        argv !! 3 = None \/ argv !! 3 = Some "" -> i = Text "127.0.0.1").
Proof.
  exists (or_else (or_else port (argv_at argv 2)) (Number 8080)),
         (or_else (or_else ip (argv_at argv 3)) (Text "127.0.0.1")).
  split; [reflexivity | ]. split; [reflexivity | ].
  split; [now apply or_else_default | ].
  split; [now apply or_else_default | ].
  unfold or_else, argv_at. repeat split.
  - intros H. rewrite !H. reflexivity.
  - intros H. rewrite !H. reflexivity.
  - intros H s Hs Hne. apply String.eqb_neq in Hne.
    rewrite !H, !Hs. cbn. now rewrite Hne.
  - intros H s Hs Hne. apply String.eqb_neq in Hne.
    rewrite !H, !Hs. cbn. now rewrite Hne.
  - intros H [Hs | Hs]; rewrite !H, !Hs; reflexivity.
  - intros H [Hs | Hs]; rewrite !H, !Hs; reflexivity.
Qed.

End BootstrapFacts.

(** ** More concrete requests *)

Module MoreCases.

Import Examples MoreExamples.

Local Abbreviation url_parse := Node.url_parse.
Local Abbreviation extname := Node.extname.
Local Abbreviation mime := Node.mime.

(** X5 on [GET /]. *)
Lemma index_opened_for_root :
  In (CreateReadStream "index.html") (serve initial (get "/") (with_index []))
  /\ method (get "/") = "GET"
  /\ "index.html" = fileToServe (pathname (url_parse "/")).
Proof.
  assert (Hin : In (CreateReadStream "index.html")
                  (serve initial (get "/") (with_index [])))
    by (vm_compute; auto).
  split; [exact Hin | ].
  destruct (file_opened_only_for_get url_parse extname mime
              initial (get "/") (with_index []) "index.html" Hin)
    as (_ & H1 & H2 & _).
  split; assumption.
Defined.


(** X8 on [PUT /x]. *)
Lemma put_head_405 :
  In (WriteHead 405 NoHeaders) (serve initial (put "/x") (no_files []))
  /\ method (put "/x") <> "GET".
Proof.
  assert (Hin : In (WriteHead 405 NoHeaders)
                  (serve initial (put "/x") (no_files [])))
    by (vm_compute; auto).
  split; [exact Hin | ].
  destruct (heads_written url_parse extname mime
              initial (put "/x") (no_files []) 405 NoHeaders Hin)
    as [[H _] | [(_ & _ & _ & H) | [(H & _) | (H & _)]]];
    [discriminate H | exact H | discriminate H | discriminate H].
Defined.

(** X9 on [GET /] with [index.html] read in two chunks. *)
Lemma root_serves_index :
  (path_accepted url_parse (get "/") = true
   /\ matched initial (url_parse "/") "GET" = None
   /\ staticServer initial = true
   /\ file_events (with_index []) "index.html"
      = map FileData ["<html>"; "</html>"] ++ FileEnd :: [])
  /\ serve initial (get "/") (with_index []) =
       [CreateReadStream "index.html";
        WriteHead 200 (ContentType (Some "text/html"));
        Pipe;
        ResponseWrite "<html>";
        ResponseWrite "</html>";
        ResponseEnd None;
        ResponseEnd None].
Proof.
  split; [repeat split | ].
  exact (file_served_in_order url_parse extname mime
           initial (get "/") (with_index []) ["<html>"; "</html>"] []
           eq_refl eq_refl eq_refl eq_refl eq_refl).
Defined.

(** X10 on two urls with the pathname [/index.html]. *)
Lemma query_does_not_change_the_file :
  pathname (url_parse "/index.html?a=1") = pathname (url_parse "/index.html?b=..")
  /\ serve initial (get "/index.html?a=1") (no_files [])
     = serve initial (get "/index.html?b=..") (no_files []).
Proof.
  split; [reflexivity | ].
  apply (serving_reads_pathname_only url_parse extname mime);
    reflexivity.
Defined.

(** X11 on [GET /]: the extension of [index.html]. *)
Lemma index_is_html :
  extname (fileToServe (pathname (url_parse "/"))) = ".html"
  /\ In (WriteHead 200 (ContentType (mime !! "html")))
       (serve initial (get "/") (with_index [])).
Proof.
  split; [reflexivity | ].
  exact (proj1 (content_type_by_extension url_parse extname mime
                  initial (get "/") (with_index []) eq_refl eq_refl eq_refl)
           "html" eq_refl).
Defined.

(** X12 on [POST /echo] with the static server disabled. *)
Lemma echo_skips_static_block :
  (path_accepted url_parse (post "/echo") = true
   /\ matched (disableStaticServer with_echo) (url_parse "/echo") "POST"
      = Some echo
   /\ stream echo = false)
  /\ count_ends (serve (disableStaticServer with_echo) (post "/echo")
                   (no_files [ReqData "hello"; ReqEnd])) <= 1.
Proof.
  split; [repeat split | ].
  exact (proj2 (buffered_handler_skips_static_block url_parse extname mime
                  (disableStaticServer with_echo) (post "/echo")
                  (no_files [ReqData "hello"; ReqEnd]) echo
                  eq_refl eq_refl eq_refl)).
Defined.

(** X13 on [POST /echo]. *)
Lemma echo_answers_when_static_disabled :
  matched with_echo (url_parse "/echo") "POST" = Some echo
  /\ serve (disableStaticServer with_echo) (post "/echo")
       (no_files [ReqData "hello"; ReqEnd])
     = serve with_echo (post "/echo") (no_files [ReqData "hello"; ReqEnd]).
Proof.
  split; [reflexivity | ].
  exact (disableStaticServer_keeps_api_answers url_parse extname mime
           with_echo (post "/echo") (no_files [ReqData "hello"; ReqEnd]) echo
           eq_refl eq_refl eq_refl).
Defined.

(** X14 on [POST /echo] after [setApiContentType( 'html' )]. *)
Lemma echo_as_html :
  mime !! "html" = Some "text/html"
  /\ matched with_echo (url_parse "/echo") "POST" = Some echo
  /\ response_calls
       (serve (setApiContentType mime "html" with_echo) (post "/echo")
          (no_files [ReqData "hel"; ReqData "lo"; ReqEnd]))
     = [WriteHead 200 (ContentType (Some "text/html"));
        ResponseEnd (Some "hello")].
Proof.
  split; [reflexivity | split; [reflexivity | ] ].
  exact (setApiContentType_sets_api_header url_parse extname mime
           with_echo (post "/echo")
           (no_files [ReqData "hel"; ReqData "lo"; ReqEnd]) echo
           "html" "text/html" ["hel"; "lo"] []
           eq_refl eq_refl eq_refl eq_refl eq_refl).
Defined.

(** X15 on [GET /] after [setApiContentType( 'html' )]. *)
Lemma root_unchanged_by_api_content_type :
  matched initial (url_parse "/") "GET" = None
  /\ serve (setApiContentType mime "html" initial) (get "/") (with_index [])
     = serve initial (get "/") (with_index []).
Proof.
  split; [reflexivity | ].
  apply (setApiContentType_keeps_other_answers url_parse extname mime).
  discriminate.
Defined.

End MoreCases.
